(** * Tailscale [types/opt] and [hostinfo] (Windows): a shallow embedding

    The Go sources are [types/opt/bool.go] (package [opt], the optional
    boolean [opt.Bool]) and the Windows half of package [hostinfo]
    ([osVersionWindows], [getUBR], [packageTypeWindows]).

    Conventions of the embedding.
    - A Go [string] is a byte sequence: Rocq's [string] (a list of 8-bit
      characters).  A [[]byte] is a [list byte]; the nil slice is [[]].
    - A method with a pointer receiver [(b *Bool)] becomes a function that
      takes the value of [*b] before the call and returns the value of [*b]
      after the call, next to the Go results.
    - A Go [error] result is an [option error]; [None] is Go's [nil].
    - [uint32] and [uint64] values are [N]; a conversion writes its
      wrap-around out.  An [int64] is a [Z]. *)

From Stdlib Require Import Strings.String Strings.Ascii Strings.Byte.
From Stdlib Require Import List ZArith NArith Bool DecimalString Lia.
From Stdlib Require Import DecimalPos DecimalN.
Import ListNotations.

Local Open Scope string_scope.

(** ** The Go values the two packages exchange with their callers *)

Module Go.

(** A value of interface type [any], by dynamic type.  The constructors
    [Nil], [Bool_] and [Int64] are the three shapes [opt.Bool.Scan]
    looks for; the others stand for every remaining dynamic type.  The
    arguments of [Other] are the type's name and the value's default
    rendering. *)
Inductive any : Type :=
| Nil
| Bool_ (v : bool)
| Int64 (v : Z)
| Float64 (bits : Z)
| String_ (v : string)
| Bytes (v : list byte)
| Other (type_name : string) (repr : string).

(** Go errors.  [Errorf format args] is the value of
    [fmt.Errorf(format, args...)]: the format string with the operands it
    is applied to.  [ErrUnexpectedType] is [registry.ErrUnexpectedType];
    [Errno] is an error code reported by the operating system. *)
Inductive error : Type :=
| Errorf (format : string) (args : list any)
| ErrUnexpectedType
| Errno (code : N).

(** [[]byte(s)] and [string(j)]. *)
Definition bytes_of (s : string) : list byte := list_byte_of_string s.
Definition string_of (j : list byte) : string := string_of_list_byte j.

(** [strconv.FormatBool]. *)
Definition FormatBool (v : bool) : string :=
  if v then "true" else "false".

End Go.

(** ** Package [opt] *)

Module opt.
Import Go.

(** [type Bool string] *)
Definition Bool : Type := string.

(** [func (b *Bool) Set(v bool)] *)
Definition Bool_Set (v : bool) (b : Bool) : Bool :=
  FormatBool v.

(** [func (b *Bool) Clear()] *)
Definition Bool_Clear (b : Bool) : Bool := "".

(** [func (b Bool) Get() (v bool, ok bool)] *)
Definition Bool_Get (b : Bool) : bool * bool :=
  if b =? "true" then (true, true)
  else if b =? "false" then (false, true)
  else (false, false).

(** [func (b *Bool) Scan(src any) error]: the new [*b] and the error. *)
Definition Bool_Scan (src : any) (b : Bool) : Bool * option error :=
  match src with
  | Nil => ("", None)
  | Bool_ v => (if v then "true" else "false", None)
  | Int64 v => (if (v =? 0)%Z then "false" else "true", None)
  | _ => (b, Some (Errorf "opt.Bool.Scan: invalid type %T: %v" [src; src]))
  end.

(** [func (b Bool) EqualBool(v bool) bool] *)
Definition Bool_EqualBool (b : Bool) (v : bool) : bool :=
  let '(p, ok) := Bool_Get b in
  ok && Bool.eqb p v.

(** The package-level byte slices.  Nothing in the package assigns to
    them after initialisation; [MarshalJSON] hands them out as they are,
    and they are taken as never written to by its callers. *)
Definition trueBytes : list byte := bytes_of "true".
Definition falseBytes : list byte := bytes_of "false".
Definition nullBytes : list byte := bytes_of "null".

(** [func (b Bool) MarshalJSON() ([]byte, error)] *)
Definition Bool_MarshalJSON (b : Bool) : list byte * option error :=
  if b =? "true" then (trueBytes, None)
  else if b =? "false" then (falseBytes, None)
  else if (b =? "") || (b =? "unset") then (nullBytes, None)
  else ([], Some (Errorf "invalid opt.Bool value %q" [String_ b])).

(** [func (b *Bool) UnmarshalJSON(j []byte) error]: the new [*b] and the
    error. *)
Definition Bool_UnmarshalJSON (j : list byte) (b : Bool)
  : Bool * option error :=
  if string_of j =? "true" then ("true", None)
  else if string_of j =? "false" then ("false", None)
  else if string_of j =? "null" then ("unset", None)
  else (b, Some (Errorf "invalid opt.Bool value %q" [Bytes j])).

(** The four encodings the package documents for a [Bool]. *)
Definition valid (b : Bool) : Prop :=
  b = "true" \/ b = "false" \/ b = "" \/ b = "unset".

Definition validb (b : Bool) : bool :=
  (b =? "true") || (b =? "false") || (b =? "") || (b =? "unset").

(** The inputs [Scan] accepts: the nil interface, a [bool], an [int64]. *)
Definition scannable (src : any) : Prop :=
  src = Nil \/ (exists v, src = Bool_ v) \/ (exists v, src = Int64 v).

(** The three JSON tokens an encoding can be. *)
Definition json_token (j : list byte) : Prop :=
  j = bytes_of "true" \/ j = bytes_of "false" \/ j = bytes_of "null".

(** The methods that change a [Bool] in place, as values: one step of a
    program that holds a [Bool] and calls them. *)
Inductive Op : Type :=
| OpSet (v : bool)
| OpClear
| OpScan (src : any)
| OpUnmarshalJSON (j : list byte).

(** The [Bool] after one method call (an error result is dropped). *)
Definition do_op (b : Bool) (o : Op) : Bool :=
  match o with
  | OpSet v => Bool_Set v b
  | OpClear => Bool_Clear b
  | OpScan src => fst (Bool_Scan src b)
  | OpUnmarshalJSON j => fst (Bool_UnmarshalJSON j b)
  end.

(** The [Bool] after a sequence of method calls, first call first. *)
Definition do_ops (ops : list Op) (b : Bool) : Bool :=
  fold_left do_op ops b.

End opt.


(** ** Package [syncs] *)

Module syncs.

(** Modelled from the spec: [syncs.AtomicValue[T]] of package
    [tailscale.com/syncs], which is not among the sources.  The spec
    describes it as an "atomically-guarded single-slot store" holding an
    "optional value", read with "read cached value if present": a slot
    that is empty until the first [Store]. *)
Definition AtomicValue (T : Type) : Type := option T.

(** [LoadOk] reports the stored value and whether one was stored; on an
    empty slot it gives the zero value of [T]. *)
Definition LoadOk {T : Type} (zero : T) (v : AtomicValue T) : T * bool :=
  match v with
  | Some x => (x, true)
  | None => (zero, false)
  end.

Definition Store {T : Type} (x : T) (v : AtomicValue T) : AtomicValue T :=
  Some x.

End syncs.

(** ** Package [hostinfo], Windows *)

Module hostinfo.
Import Go.

(** *** What the process observes of the system

    A [World] is the state of the machine during one call: what each
    system query of the two probes answers.  Between two calls the world
    may be another one. *)
Record World : Type := mkWorld {
  (** [windows.RtlGetNtVersionNumbers()]: major, minor, build. *)
  nt_version : N * N * N;
  (** [registry.OpenKey(registry.LOCAL_MACHINE, path,
      registry.QUERY_VALUE|registry.WOW64_64KEY)]: the error. *)
  reg_open : string -> option error;
  (** [key.GetIntegerValue(name)] on the key opened at [path]:
      value, value type, error. *)
  reg_integer : string -> string -> N * N * option error;
  (** [os.Stat(path)]: the error. *)
  stat : string -> option error;
  (** [os.Executable()]. *)
  executable : string * option error;
  (** The integer flag of that name in the configuration store of the
      installer, or the given default. *)
  reg_flag : string -> N -> N
}.

(** The system queries a probe makes, in the order it makes them. *)
Inductive Query : Type :=
| QRtlGetNtVersionNumbers
| QOpenKey (path : string)
| QGetIntegerValue (path name : string)
| QCloseKey (path : string)
| QStat (path : string)
| QExecutable
| QGetRegInteger (name : string) (default : N).

(** The state of the process: the package variable [winVerCache] and the
    log of the queries made so far (oldest first). *)
Record Proc : Type := mkProc {
  winVerCache : syncs.AtomicValue string;
  queries : list Query
}.

(** A computation of the package: it reads the world, updates the process
    state and returns a result. *)
Definition M (A : Type) : Type := World -> Proc -> A * Proc.

Definition ret {A : Type} (a : A) : M A :=
  fun _ p => (a, p).

Definition bind {A B : Type} (c : M A) (k : A -> M B) : M B :=
  fun w p => let '(a, p1) := c w p in k a w p1.

Declare Scope probe_scope.
Delimit Scope probe_scope with probe.
Notation "x <- c ;; k" := (bind c (fun x => k))
  (at level 61, c at next level, right associativity) : probe_scope.
Notation "' pat <- c ;; k" := (bind c (fun x => match x with pat => k end))
  (at level 61, pat pattern, c at next level, right associativity)
  : probe_scope.
Notation "c ;; k" := (bind c (fun _ => k))
  (at level 61, right associativity) : probe_scope.
Local Open Scope probe_scope.

(** One system query: it is logged and answered by the world. *)
Definition ask {A : Type} (q : Query) (answer : World -> A) : M A :=
  fun w p => (answer w, mkProc (winVerCache p) (queries p ++ [q])).

(** [defer cleanup] around a function body. *)
Definition defer {A : Type} (cleanup : M unit) (body : M A) : M A :=
  r <- body ;; cleanup ;; ret r.

Definition RtlGetNtVersionNumbers : M (N * N * N) :=
  ask QRtlGetNtVersionNumbers nt_version.
Definition registry_OpenKey (path : string) : M (option error) :=
  ask (QOpenKey path) (fun w => reg_open w path).
Definition Key_GetIntegerValue (path name : string)
  : M (N * N * option error) :=
  ask (QGetIntegerValue path name) (fun w => reg_integer w path name).
Definition Key_Close (path : string) : M unit :=
  ask (QCloseKey path) (fun _ => tt).
Definition os_Stat (path : string) : M (option error) :=
  ask (QStat path) (fun w => stat w path).
Definition os_Executable : M (string * option error) :=
  ask QExecutable executable.

(** Modelled from the spec: [winutil.GetRegInteger(name, default)] of
    package [tailscale.com/util/winutil], which is not among the sources.
    The spec calls what it reads "a configuration-store flag indicating an
    installer-driven deployment"; its value is taken from the world. *)
Definition winutil_GetRegInteger (name : string) (default : N) : M N :=
  ask (QGetRegInteger name default) (fun w => reg_flag w name default).

(** [winVerCache.LoadOk()] and [winVerCache.Store(s)]. *)
Definition winVerCache_LoadOk : M (string * bool) :=
  fun _ p => (syncs.LoadOk "" (winVerCache p), p).
Definition winVerCache_Store (s : string) : M unit :=
  fun _ p => (tt, mkProc (syncs.Store s (winVerCache p)) (queries p)).

(** [registry.DWORD] *)
Definition DWORD : N := 4.

(** [uint32(val)] of a [uint64]. *)
Definition uint32 (val : N) : N := (val mod 2 ^ 32)%N.

(** The verb [%d] of [fmt] on an unsigned integer. *)
Definition fmt_d (n : N) : string :=
  NilZero.string_of_uint (N.to_uint n).

(** The registry key [getUBR] reads. *)
Definition CurrentVersion : string :=
  "SOFTWARE\Microsoft\Windows NT\CurrentVersion".

(** [func getUBR() (uint32, error)] *)
Definition getUBR : M (N * option error) :=
  err <- registry_OpenKey CurrentVersion ;;
  match err with
  | Some e => ret (0%N, Some e)
  | None =>
      defer (Key_Close CurrentVersion)
        (' (val, valType, err) <- Key_GetIntegerValue CurrentVersion "UBR" ;;
         match err with
         | Some e => ret (0%N, Some e)
         | None =>
             if negb (valType =? DWORD)%N
             then ret (0%N, Some ErrUnexpectedType)
             else ret (uint32 val, None)
         end)
  end.

(** [osVersionWindows], lines 137-144: the version string is computed. *)
Definition osVersionWindows_compute : M string :=
  ' (major, minor, build) <- RtlGetNtVersionNumbers ;;
  let s := fmt_d major ++ "." ++ fmt_d minor ++ "." ++ fmt_d build in
  if (major =? 10)%N then
    ' (ubr, err) <- getUBR ;;
    match err with
    | None => ret (s ++ "." ++ fmt_d ubr)
    | Some _ => ret s
    end
  else ret s.

(** [osVersionWindows], lines 145-148: the string is stored unless it is
    empty, and returned. *)
Definition osVersionWindows_store (s : string) : M string :=
  (if negb (s =? "") then winVerCache_Store s else ret tt) ;;
  ret s.

(** [func osVersionWindows() string] *)
Definition osVersionWindows : M string :=
  ' (s, ok) <- winVerCache_LoadOk ;;
  if ok then ret s
  else s <- osVersionWindows_compute ;; osVersionWindows_store s.

(** The functions of [path/filepath] that [packageTypeWindows] calls. *)
Class Filepath : Type := {
  filepath_Dir : string -> string;
  filepath_Join : list string -> string
}.

(** The install path of the Chocolatey package. *)
Definition chocoPath : string :=
  "C:\ProgramData\chocolatey\lib\tailscale".

(** [func packageTypeWindows() string] *)
Definition packageTypeWindows `{Filepath} : M string :=
  err <- os_Stat chocoPath ;;
  match err with
  | None => ret "choco"
  | Some _ =>
      msiSentinel <- winutil_GetRegInteger "MSI" 0%N ;;
      if (msiSentinel =? 1)%N then ret "msi"
      else
        ' (exe, err) <- os_Executable ;;
        match err with
        | Some _ => ret ""
        | None =>
            let dir := filepath_Dir exe in
            let nsisUninstaller :=
              filepath_Join [dir; "Uninstall-Tailscale.exe"] in
            err <- os_Stat nsisUninstaller ;;
            match err with
            | None => ret "nsis"
            | Some _ => ret ""
            end
        end
  end.

(** Successive calls of [osVersionWindows] in one process, the [i]-th in
    the [i]-th world of [ws]: the strings returned and the final state. *)
Fixpoint osVersionWindows_calls (ws : list World) (p : Proc)
  : list string * Proc :=
  match ws with
  | [] => ([], p)
  | w :: ws' =>
      let '(s, p1) := osVersionWindows w p in
      let '(ss, p2) := osVersionWindows_calls ws' p1 in
      (s :: ss, p2)
  end.

(** The number of ['.'] in a string: one less than its dotted segments. *)
Fixpoint dots (s : string) : nat :=
  match s with
  | EmptyString => 0
  | String c s' => (if Ascii.eqb c "."%char then 1 else 0) + dots s'
  end.

(** The three version numbers of a world. *)
Definition major (w : World) : N := fst (fst (nt_version w)).
Definition minor (w : World) : N := snd (fst (nt_version w)).
Definition build (w : World) : N := snd (nt_version w).

(** The string ["MAJOR.MINOR.BUILD"] of a world. *)
Definition three_segments (w : World) : string :=
  fmt_d (major w) ++ "." ++ fmt_d (minor w) ++ "." ++ fmt_d (build w).

(** The registry value [UBR] as the world gives it. *)
Definition ubr_value (w : World) : N :=
  fst (fst (reg_integer w CurrentVersion "UBR")).
Definition ubr_type (w : World) : N :=
  snd (fst (reg_integer w CurrentVersion "UBR")).
Definition ubr_error (w : World) : option error :=
  snd (reg_integer w CurrentVersion "UBR").

(** The registry read of the update build revision works: the key opens,
    the value is read, and its type is [DWORD]. *)
Definition ubr_readable (w : World) : Prop :=
  reg_open w CurrentVersion = None /\
  ubr_error w = None /\
  ubr_type w = DWORD.

(** The path of the uninstaller beside the running binary. *)
Definition nsisUninstaller `{Filepath} (w : World) : string :=
  filepath_Join [filepath_Dir (fst (executable w)); "Uninstall-Tailscale.exe"].

(** *** Concrete machines for test runs *)

(** The part of a path before its last backslash, if it has one. *)
Fixpoint before_last_backslash (s : string) : option string :=
  match s with
  | EmptyString => None
  | String c s' =>
      match before_last_backslash s' with
      | Some d => Some (String c d)
      | None => if Ascii.eqb c "\"%char then Some EmptyString else None
      end
  end.

(** A small [Filepath] for the test runs below: [Dir] cuts at the last
    backslash and [Join] puts one backslash between the elements.  On the
    paths of the test runs this is what Go's functions give; the theorems
    hold for every [Filepath]. *)
Definition test_filepath : Filepath := {|
  filepath_Dir := fun path =>
    match before_last_backslash path with
    | Some d => d
    | None => "."
    end;
  filepath_Join := fun elem => String.concat "\" elem
|}.

(** An operating-system error code: file or value not found. *)
Definition ERROR_FILE_NOT_FOUND : error := Errno 2.
Definition ERROR_ACCESS_DENIED : error := Errno 5.

(** Windows 11 23H2, installed from the MSI package. *)
Definition windows11 : World := {|
  nt_version := (10, 0, 22631)%N;
  reg_open := fun _ => None;
  reg_integer := fun path name =>
    if (path =? CurrentVersion) && (name =? "UBR")
    then (3447%N, DWORD, None)
    else (0%N, 0%N, Some ERROR_FILE_NOT_FOUND);
  stat := fun _ => Some ERROR_FILE_NOT_FOUND;
  executable := ("C:\Program Files\Tailscale\tailscaled.exe", None);
  reg_flag := fun name default =>
    if name =? "MSI" then 1%N else default
|}.

(** The same machine after an update changed the revision. *)
Definition windows11_patched : World := {|
  nt_version := nt_version windows11;
  reg_open := reg_open windows11;
  reg_integer := fun path name =>
    if (path =? CurrentVersion) && (name =? "UBR")
    then (3593%N, DWORD, None)
    else (0%N, 0%N, Some ERROR_FILE_NOT_FOUND);
  stat := stat windows11;
  executable := executable windows11;
  reg_flag := reg_flag windows11
|}.

(** Windows 7: no [UBR] value, an NSIS install. *)
Definition windows7 : World := {|
  nt_version := (6, 1, 7601)%N;
  reg_open := fun _ => None;
  reg_integer := fun _ _ => (0%N, 0%N, Some ERROR_FILE_NOT_FOUND);
  stat := fun path =>
    if path =? "C:\Tailscale\Uninstall-Tailscale.exe"
    then None else Some ERROR_FILE_NOT_FOUND;
  executable := ("C:\Tailscale\tailscaled.exe", None);
  reg_flag := fun _ default => default
|}.

(** Windows 10 with the registry key closed to the process, installed
    by Chocolatey over an MSI package that left its uninstaller. *)
Definition windows10_locked : World := {|
  nt_version := (10, 0, 19041)%N;
  reg_open := fun _ => Some ERROR_ACCESS_DENIED;
  reg_integer := fun _ _ => (388%N, DWORD, None);
  stat := fun _ => None;
  executable := ("C:\Program Files\Tailscale\tailscaled.exe", None);
  reg_flag := fun name default =>
    if name =? "MSI" then 1%N else default
|}.

(** The state of a process that has not run a probe yet. *)
Definition initial : Proc := mkProc None [].

(** The rest of the body of [osVersionWindows] once [LoadOk] has found
    nothing: lines 137-148. *)
Definition osVersionWindows_after_miss : M string :=
  s <- osVersionWindows_compute ;; osVersionWindows_store s.

(** The characters of a version string: decimal digits and the dot. *)
Definition version_char (c : ascii) : bool :=
  match c with
  | "."%char
  | "0"%char | "1"%char | "2"%char | "3"%char | "4"%char
  | "5"%char | "6"%char | "7"%char | "8"%char | "9"%char => true
  | _ => false
  end.

Fixpoint version_chars (s : string) : bool :=
  match s with
  | EmptyString => true
  | String c s' => version_char c && version_chars s'
  end.

(** A string of three or four dotted segments of digits and dots. *)
Definition version_ok (s : string) : bool :=
  version_chars s && ((dots s =? 2)%nat || (dots s =? 3)%nat).

(** The cache is empty or holds such a string. *)
Definition cache_ok (p : Proc) : Prop :=
  match winVerCache p with
  | None => True
  | Some s => version_ok s = true
  end.

(** The four queries of [packageTypeWindows], in source order. *)
Definition packageType_queries `{Filepath} (w : World) : list Query :=
  [QStat chocoPath; QGetRegInteger "MSI" 0%N; QExecutable;
   QStat (nsisUninstaller w)].

(** *** Calls that overlap

    [osVersionWindows] reads the cache once, at [LoadOk] (line 134), and
    writes it once, at [Store] (line 146); nothing holds the cache in
    between.  A call on one goroutine can therefore be at line 134 while
    calls on other goroutines run.  The call is cut at that point. *)

(** Line 134: the call loads the cache.  [Some s]: the string [s] is
    cached and the call will return it (line 135); [None]: nothing is
    cached and the call will compute. *)
Definition osVersionWindows_begin : M (option string) :=
  ' (s, ok) <- winVerCache_LoadOk ;;
  ret (if ok : bool then Some s else None).

(** Lines 135-148: the rest of the call, given what it loaded. *)
Definition osVersionWindows_finish (loaded : option string) : M string :=
  match loaded with
  | Some s => ret s
  | None => osVersionWindows_after_miss
  end.

(** One step of a process that calls [osVersionWindows] on several
    goroutines: goroutine [g] begins a call, or runs the rest of the call
    it has begun.  Each step happens in the world of its moment. *)
Inductive Action : Type :=
| Begin (g : nat) (w : World)
| Finish (g : nat) (w : World).

(** The process with its calls in flight (goroutine, what the call
    loaded) and the strings returned so far (oldest first). *)
Record Sys : Type := mkSys {
  proc : Proc;
  in_flight : list (nat * option string);
  returned : list (nat * string)
}.

(** The call in flight on goroutine [g], taken out of the list. *)
Fixpoint take_call (g : nat) (l : list (nat * option string))
  : option (option string * list (nat * option string)) :=
  match l with
  | [] => None
  | (g', x) :: l' =>
      if Nat.eqb g g' then Some (x, l')
      else match take_call g l' with
           | Some (y, r) => Some (y, (g', x) :: r)
           | None => None
           end
  end.

(** A goroutine runs one call at a time: [Begin] on a goroutine with a
    call in flight and [Finish] on one without do nothing. *)
Definition act (sys : Sys) (a : Action) : Sys :=
  match a with
  | Begin g w =>
      match take_call g (in_flight sys) with
      | Some _ => sys
      | None =>
          let '(loaded, p) := osVersionWindows_begin w (proc sys) in
          mkSys p ((g, loaded) :: in_flight sys) (returned sys)
      end
  | Finish g w =>
      match take_call g (in_flight sys) with
      | None => sys
      | Some (loaded, rest) =>
          let '(s, p) := osVersionWindows_finish loaded w (proc sys) in
          mkSys p rest (returned sys ++ [(g, s)])
      end
  end.

Definition run (schedule : list Action) (sys : Sys) : Sys :=
  fold_left act schedule sys.

(** A process that has not called the probe yet. *)
Definition start : Sys := mkSys initial [] [].


End hostinfo.


(** * Properties of package [opt] *)

Module OptFacts.
Import Go opt.

(** Case analysis on every string comparison in sight. *)
Ltac string_cases :=
  repeat match goal with
  | |- context [String.eqb ?a ?b] =>
      destruct (String.eqb_spec a b); try subst; cbn
  | H : context [String.eqb ?a ?b] |- _ =>
      destruct (String.eqb_spec a b); try subst; cbn in H
  end.

Lemma string_of_is (j : list byte) (s : string) :
  string_of j = s <-> j = bytes_of s.
Proof.
  unfold string_of, bytes_of. split; intros E.
  - rewrite <- E. now rewrite list_byte_of_string_of_list_byte.
  - rewrite E. apply string_of_list_byte_of_string.
Qed.

Lemma validb_spec (b : Bool) : validb b = true <-> valid b.
Proof.
  unfold validb, valid. split.
  - string_cases; intros E; auto; discriminate.
  - intros [-> | [-> | [-> | ->]]]; reflexivity.
Qed.

(** C2.  [Get] is total and reads only the two spellings ["true"] and
    ["false"]: it answers [(true, true)] exactly on ["true"],
    [(false, true)] exactly on ["false"], and [(false, false)] on every
    other string, the empty one, ["unset"] and invalid contents included.
    So [Get] after [Set(true)] is [(true, true)], after [Set(false)] it is
    [(false, true)], and after [Clear()] it is [(false, false)], whatever
    the value [b0] held before. *)
Theorem Bool_Get_total (b b0 : Bool) :
  (Bool_Get b = (true, true) <-> b = "true") /\
  (Bool_Get b = (false, true) <-> b = "false") /\
  (Bool_Get b = (false, false) <-> b <> "true" /\ b <> "false") /\
  Bool_Get "" = (false, false) /\
  Bool_Get "unset" = (false, false) /\
  Bool_Get (Bool_Set true b0) = (true, true) /\
  Bool_Get (Bool_Set false b0) = (false, true) /\
  Bool_Get (Bool_Clear b0) = (false, false).
Proof.
  assert (G : forall c : Bool,
             (c = "true" /\ Bool_Get c = (true, true)) \/
             (c = "false" /\ Bool_Get c = (false, true)) \/
             (c <> "true" /\ c <> "false" /\ Bool_Get c = (false, false))).
  { intros c. unfold Bool_Get.
    destruct (String.eqb_spec c "true") as [-> | Ht]; [now left |].
    destruct (String.eqb_spec c "false") as [-> | Hf]; [right; now left |].
    right; right. now repeat split. }
  destruct (G b) as [[-> E] | [[-> E] | (Ht & Hf & E)]]; rewrite E;
    (repeat split; try reflexivity; try discriminate; try congruence;
     try tauto).
Qed.

(** C3.  [EqualBool(v)] is true if and only if [Get] answers [(v, true)];
    against a value whose [Get] says "not ok" (unset or invalid) it is
    false for either boolean. *)
Theorem Bool_EqualBool_iff_Get (b : Bool) (v : bool) :
  (Bool_EqualBool b v = true <-> Bool_Get b = (v, true)) /\
  (snd (Bool_Get b) = false ->
   Bool_EqualBool b true = false /\ Bool_EqualBool b false = false).
Proof.
  unfold Bool_EqualBool.
  destruct (Bool_Get b) as [p ok]. cbn. split.
  - destruct ok, p, v; cbn; split; intros E; congruence.
  - intros ->. split; reflexivity.
Qed.

Lemma Bool_EqualBool_iff_Get_witness :
  Bool_EqualBool "unset" true = false /\ Bool_EqualBool "unset" false = false.
Proof.
  apply (Bool_EqualBool_iff_Get "unset" true). reflexivity.
Defined.

(** C4.  [Scan] returns a nil error exactly on nil, [bool] and [int64]
    inputs.  [Scan(nil)] stores the empty string (what [Clear] stores),
    [Scan(true)] and [Scan(false)] store ["true"] and ["false"], an [int64]
    stores ["false"] when it is zero and ["true"] otherwise.  For an input
    of any other dynamic type the error is
    [fmt.Errorf("opt.Bool.Scan: invalid type %T: %v", src, src)]: it names
    the type and the value of the input. *)
Theorem Bool_Scan_cases (src : any) (b : Bool) :
  (snd (Bool_Scan src b) = None <-> scannable src) /\
  Bool_Scan Nil b = (Bool_Clear b, None) /\
  Bool_Scan Nil b = ("", None) /\
  Bool_Scan (Bool_ true) b = ("true", None) /\
  Bool_Scan (Bool_ false) b = ("false", None) /\
  Bool_Scan (Int64 0) b = ("false", None) /\
  (forall v : Z, v <> 0%Z -> Bool_Scan (Int64 v) b = ("true", None)) /\
  (~ scannable src ->
   snd (Bool_Scan src b) =
     Some (Errorf "opt.Bool.Scan: invalid type %T: %v" [src; src])).
Proof.
  unfold scannable. repeat split; try reflexivity.
  - destruct src; cbn; intros E; try discriminate; eauto.
  - intros [-> | [[v ->] | [v ->]]]; reflexivity.
  - intros v Hv. cbn. destruct (Z.eqb_spec v 0); [contradiction | reflexivity].
  - intros Hn. destruct src; cbn; try reflexivity; exfalso; apply Hn; eauto.
Qed.

Lemma Bool_Scan_cases_witness :
  Bool_Scan (Int64 5) "false" = ("true", None) /\
  snd (Bool_Scan (String_ "hello") "true") =
    Some (Errorf "opt.Bool.Scan: invalid type %T: %v"
            [String_ "hello"; String_ "hello"]).
Proof.
  split.
  - apply (Bool_Scan_cases Nil "false"). discriminate.
  - apply (Bool_Scan_cases (String_ "hello") "true").
    intros [E | [[v E] | [v E]]]; discriminate.
Defined.

Lemma Bool_MarshalJSON_invalid (b : Bool) :
  ~ valid b ->
  Bool_MarshalJSON b =
    ([], Some (Errorf "invalid opt.Bool value %q" [String_ b])).
Proof.
  unfold valid, Bool_MarshalJSON. intros Hn.
  destruct (String.eqb_spec b "true"); [tauto |].
  destruct (String.eqb_spec b "false"); [tauto |].
  destruct (String.eqb_spec b ""); [tauto |].
  destruct (String.eqb_spec b "unset"); [tauto |].
  reflexivity.
Qed.

Lemma valid_dec (b : Bool) : valid b \/ ~ valid b.
Proof.
  destruct (validb b) eqn:E.
  - left. now apply validb_spec.
  - right. intros V. apply validb_spec in V. congruence.
Qed.

(** C5.  [MarshalJSON] returns the bytes [true] for ["true"], [false] for
    ["false"], and [null] for both [""] and ["unset"], each with a nil
    error.  For every other backing string it returns the error
    [fmt.Errorf("invalid opt.Bool value %q", string(b))], which carries
    the string.  Hence the encoding succeeds exactly on the four valid
    strings, and a successful encoding is one of the tokens [true],
    [false], [null]. *)
Theorem Bool_MarshalJSON_tokens (b : Bool) (j : list byte) :
  Bool_MarshalJSON "true" = (bytes_of "true", None) /\
  Bool_MarshalJSON "false" = (bytes_of "false", None) /\
  Bool_MarshalJSON "" = (bytes_of "null", None) /\
  Bool_MarshalJSON "unset" = (bytes_of "null", None) /\
  (~ valid b ->
   Bool_MarshalJSON b =
     ([], Some (Errorf "invalid opt.Bool value %q" [String_ b]))) /\
  (snd (Bool_MarshalJSON b) = None <-> valid b) /\
  (Bool_MarshalJSON b = (j, None) -> json_token j).
Proof.
  repeat split; try reflexivity.
  - apply Bool_MarshalJSON_invalid.
  - intros E. destruct (valid_dec b) as [V | V]; [exact V |].
    rewrite (Bool_MarshalJSON_invalid b V) in E. discriminate.
  - intros [-> | [-> | [-> | ->]]]; reflexivity.
  - intros E. destruct (valid_dec b) as [V | V].
    + unfold json_token.
      destruct V as [-> | [-> | [-> | ->]]]; cbn in E;
        injection E as <-; auto.
    + rewrite (Bool_MarshalJSON_invalid b V) in E. discriminate.
Qed.

Lemma Bool_MarshalJSON_tokens_witness :
  Bool_MarshalJSON "maybe" =
    ([], Some (Errorf "invalid opt.Bool value %q" [String_ "maybe"])) /\
  json_token (bytes_of "null").
Proof.
  split.
  - apply (Bool_MarshalJSON_tokens "maybe" []).
    intros [E | [E | [E | E]]]; discriminate.
  - apply (Bool_MarshalJSON_tokens "unset" (bytes_of "null")). reflexivity.
Defined.

Lemma Bool_UnmarshalJSON_other (j : list byte) (b : Bool) :
  ~ json_token j ->
  Bool_UnmarshalJSON j b =
    (b, Some (Errorf "invalid opt.Bool value %q" [Bytes j])).
Proof.
  unfold json_token, Bool_UnmarshalJSON. intros Hn.
  destruct (String.eqb_spec (string_of j) "true") as [E | _].
  { apply string_of_is in E. tauto. }
  destruct (String.eqb_spec (string_of j) "false") as [E | _].
  { apply string_of_is in E. tauto. }
  destruct (String.eqb_spec (string_of j) "null") as [E | _].
  { apply string_of_is in E. tauto. }
  reflexivity.
Qed.

Lemma json_token_dec (j : list byte) : json_token j \/ ~ json_token j.
Proof.
  unfold json_token.
  destruct (String.eqb_spec (string_of j) "true") as [E | Nt].
  { left. left. now apply string_of_is. }
  destruct (String.eqb_spec (string_of j) "false") as [E | Nf].
  { left. right. left. now apply string_of_is. }
  destruct (String.eqb_spec (string_of j) "null") as [E | Nn].
  { left. right. right. now apply string_of_is. }
  right. intros [E | [E | E]]; apply string_of_is in E; contradiction.
Qed.

(** C6.  [UnmarshalJSON] returns a nil error exactly on the byte
    sequences [true], [false] and [null]; it then stores ["true"],
    ["false"] and ["unset"] (for [null]: not the empty string).  On every
    other byte sequence the error is
    [fmt.Errorf("invalid opt.Bool value %q", j)]: it refers to the input
    bytes. *)
Theorem Bool_UnmarshalJSON_cases (j : list byte) (b : Bool) :
  (snd (Bool_UnmarshalJSON j b) = None <-> json_token j) /\
  Bool_UnmarshalJSON (bytes_of "true") b = ("true", None) /\
  Bool_UnmarshalJSON (bytes_of "false") b = ("false", None) /\
  Bool_UnmarshalJSON (bytes_of "null") b = ("unset", None) /\
  fst (Bool_UnmarshalJSON (bytes_of "null") b) <> "" /\
  (~ json_token j ->
   snd (Bool_UnmarshalJSON j b) =
     Some (Errorf "invalid opt.Bool value %q" [Bytes j])).
Proof.
  repeat split; try reflexivity.
  - intros E. destruct (json_token_dec j) as [T | T]; [exact T |].
    rewrite (Bool_UnmarshalJSON_other j b T) in E. discriminate.
  - intros [-> | [-> | ->]]; reflexivity.
  - discriminate.
  - intros T. now rewrite (Bool_UnmarshalJSON_other j b T).
Qed.

Lemma Bool_UnmarshalJSON_cases_witness :
  snd (Bool_UnmarshalJSON (bytes_of "1") "true") =
    Some (Errorf "invalid opt.Bool value %q" [Bytes (bytes_of "1")]).
Proof.
  apply (Bool_UnmarshalJSON_cases (bytes_of "1") "true").
  intros [E | [E | E]]; discriminate.
Defined.

(** C1.  For each of the four valid encodings [v], encoding succeeds and
    decoding the encoding (into a receiver holding any [b0]) succeeds with
    a value whose [Get] is that of [v].  The backing string itself comes
    back for ["true"] and ["false"]; for [""] and ["unset"] it comes back
    as ["unset"]. *)
Theorem Bool_json_roundtrip (v b0 : Bool) :
  valid v ->
  exists (j : list byte) (b' : Bool),
    Bool_MarshalJSON v = (j, None) /\
    Bool_UnmarshalJSON j b0 = (b', None) /\
    Bool_Get b' = Bool_Get v /\
    (v = "true" \/ v = "false" -> b' = v) /\
    (v = "" \/ v = "unset" -> b' = "unset").
Proof.
  intros [-> | [-> | [-> | ->]]].
  - exists (bytes_of "true"), "true".
    repeat split; intros [E | E]; try discriminate; reflexivity.
  - exists (bytes_of "false"), "false".
    repeat split; intros [E | E]; try discriminate; reflexivity.
  - exists (bytes_of "null"), "unset".
    repeat split; intros [E | E]; try discriminate; reflexivity.
  - exists (bytes_of "null"), "unset".
    repeat split; intros [E | E]; try discriminate; reflexivity.
Qed.

Lemma Bool_json_roundtrip_witness :
  exists (j : list byte) (b' : Bool),
    Bool_MarshalJSON "" = (j, None) /\
    Bool_UnmarshalJSON j "false" = (b', None) /\
    Bool_Get b' = Bool_Get "" /\
    ("" = "true" \/ "" = "false" -> b' = "") /\
    ("" = "" \/ "" = "unset" -> b' = "unset").
Proof.
  apply (Bool_json_roundtrip "" "false").
  right; right; left; reflexivity.
Defined.

(** C10.  A failed decode changes nothing: when [Scan] or
    [UnmarshalJSON] returns a non-nil error, the receiver holds after the
    call the value it held before. *)
Theorem failed_decode_keeps_receiver
  (src : any) (j : list byte) (b : Bool) (e : error) :
  (snd (Bool_Scan src b) = Some e -> fst (Bool_Scan src b) = b) /\
  (snd (Bool_UnmarshalJSON j b) = Some e ->
   fst (Bool_UnmarshalJSON j b) = b).
Proof.
  split.
  - destruct src; cbn; intros E; try discriminate; reflexivity.
  - destruct (json_token_dec j) as [T | T].
    + destruct T as [-> | [-> | ->]]; cbn; discriminate.
    + rewrite (Bool_UnmarshalJSON_other j b T). reflexivity.
Qed.

Lemma failed_decode_keeps_receiver_witness :
  fst (Bool_Scan (String_ "hello") "true") = "true" /\
  fst (Bool_UnmarshalJSON (bytes_of "yes") "false") = "false".
Proof.
  pose (e1 := Errorf "opt.Bool.Scan: invalid type %T: %v"
                [String_ "hello"; String_ "hello"]).
  pose (e2 := Errorf "invalid opt.Bool value %q" [Bytes (bytes_of "yes")]).
  split.
  - apply (proj1 (failed_decode_keeps_receiver
                    (String_ "hello") [] "true" e1)). reflexivity.
  - apply (proj2 (failed_decode_keeps_receiver
                    Nil (bytes_of "yes") "false" e2)). reflexivity.
Defined.

End OptFacts.

(** * Properties of package [hostinfo] *)

Module HostinfoFacts.
Import Go hostinfo.
Local Open Scope probe_scope.

Example osVersionWindows_windows11 :
  fst (osVersionWindows windows11 initial) = "10.0.22631.3447".
Proof. reflexivity. Qed.

Example osVersionWindows_windows7 :
  osVersionWindows windows7 initial =
    ("6.1.7601", mkProc (Some "6.1.7601") [QRtlGetNtVersionNumbers]).
Proof. reflexivity. Qed.

Example osVersionWindows_windows10_locked :
  osVersionWindows windows10_locked initial =
    ("10.0.19041",
     mkProc (Some "10.0.19041")
       [QRtlGetNtVersionNumbers; QOpenKey CurrentVersion]).
Proof. reflexivity. Qed.

Example packageTypeWindows_windows7 :
  fst (@packageTypeWindows test_filepath windows7 initial) = "nsis".
Proof. reflexivity. Qed.

(** *** The version string *)

Lemma dots_app (a b : string) : dots (a ++ b) = dots a + dots b.
Proof.
  induction a as [| c a IH]; cbn; [reflexivity |].
  rewrite IH. now rewrite Nat.add_assoc.
Qed.

Lemma dots_digits (d : Decimal.uint) : dots (NilEmpty.string_of_uint d) = 0.
Proof. induction d; cbn; auto. Qed.

Lemma dots_fmt_d (n : N) : dots (fmt_d n) = 0.
Proof.
  unfold fmt_d, NilZero.string_of_uint.
  destruct (N.to_uint n) eqn:E; try reflexivity;
    rewrite <- E; rewrite dots_digits; reflexivity.
Qed.

Lemma dots_three_segments (w : World) : dots (three_segments w) = 2.
Proof.
  unfold three_segments. rewrite !dots_app, !dots_fmt_d. reflexivity.
Qed.

Lemma three_segments_nonempty (w : World) (t : string) :
  three_segments w ++ t <> "".
Proof.
  intros E. apply (f_equal dots) in E.
  rewrite dots_app, dots_three_segments in E. discriminate.
Qed.

(** What [getUBR] returns, read off the world. *)
Lemma getUBR_result (w : World) (p : Proc) :
  (ubr_readable w -> fst (getUBR w p) = (uint32 (ubr_value w), None)) /\
  (~ ubr_readable w -> exists e, fst (getUBR w p) = (0%N, Some e)).
Proof.
  unfold ubr_readable, ubr_error, ubr_type, ubr_value, getUBR, defer, bind,
    registry_OpenKey, Key_GetIntegerValue, Key_Close, ask, ret. cbn.
  destruct (reg_open w CurrentVersion) as [e |].
  { split; [intros [E _]; discriminate | intros _; cbn; eexists; reflexivity]. }
  destruct (reg_integer w CurrentVersion "UBR") as [[val ty] [e |]]; cbn.
  { split; [intros (_ & E & _); discriminate | intros _; eexists; reflexivity]. }
  destruct (N.eqb_spec ty DWORD) as [-> | Hty]; cbn.
  - split; [reflexivity | intros Hn; exfalso; apply Hn; auto].
  - split; [intros (_ & _ & E); contradiction | intros _; eexists; reflexivity].
Qed.

Lemma ubr_readable_dec (w : World) : ubr_readable w \/ ~ ubr_readable w.
Proof.
  unfold ubr_readable, ubr_error, ubr_type.
  destruct (reg_open w CurrentVersion); [right; intros [E _]; discriminate |].
  destruct (reg_integer w CurrentVersion "UBR") as [[val ty] [e |]]; cbn.
  { right; intros (_ & E & _); discriminate. }
  destruct (N.eqb_spec ty DWORD); [left; auto | right; tauto].
Qed.

(** The string [osVersionWindows] computes when it computes. *)
Lemma osVersionWindows_compute_result (w : World) (p : Proc) :
  (major w = 10%N /\ ubr_readable w ->
   fst (osVersionWindows_compute w p) =
     three_segments w ++ "." ++ fmt_d (uint32 (ubr_value w))) /\
  (~ (major w = 10%N /\ ubr_readable w) ->
   fst (osVersionWindows_compute w p) = three_segments w).
Proof.
  unfold osVersionWindows_compute, three_segments, major, minor, build.
  unfold bind at 1. unfold RtlGetNtVersionNumbers, ask. cbn.
  destruct (nt_version w) as [[ma mi] bu]. cbn.
  set (p1 := mkProc _ _).
  destruct (N.eqb_spec ma 10) as [-> | Hma].
  - unfold bind. destruct (getUBR_result w p1) as [Hok Hko].
    destruct (ubr_readable_dec w) as [R | R].
    + specialize (Hok R). destruct (getUBR w p1) as [[u e] p2].
      cbn in Hok. injection Hok as -> ->. cbn.
      split; [reflexivity | intros Hn; exfalso; apply Hn; auto].
    + destruct (Hko R) as [e0 E]. destruct (getUBR w p1) as [[u e] p2].
      cbn in E. injection E as -> ->. cbn.
      split; [intros [_ R']; contradiction | reflexivity].
  - cbn. split; [intros [E _]; contradiction | reflexivity].
Qed.

(** The computed string is never empty: the guard of the store is always
    passed. *)
Lemma osVersionWindows_compute_nonempty (w : World) (p : Proc) :
  fst (osVersionWindows_compute w p) <> "".
Proof.
  destruct (osVersionWindows_compute_result w p) as [Hok Hko].
  assert (D : (major w = 10%N /\ ubr_readable w) \/
              ~ (major w = 10%N /\ ubr_readable w)).
  { destruct (N.eq_dec (major w) 10); destruct (ubr_readable_dec w); tauto. }
  destruct D as [D | D].
  - rewrite (Hok D). apply three_segments_nonempty.
  - rewrite (Hko D). intros E. apply (f_equal dots) in E.
    rewrite dots_three_segments in E. discriminate.
Qed.

(** *** The cache *)

Lemma osVersionWindows_hit (w : World) (p : Proc) (s : string) :
  winVerCache p = Some s -> osVersionWindows w p = (s, p).
Proof.
  intros E. unfold osVersionWindows, bind, winVerCache_LoadOk, ret.
  rewrite E. reflexivity.
Qed.

Lemma osVersionWindows_miss (w : World) (p : Proc) :
  winVerCache p = None ->
  osVersionWindows w p =
    (s <- osVersionWindows_compute ;; osVersionWindows_store s) w p.
Proof.
  intros E. unfold osVersionWindows, winVerCache_LoadOk.
  unfold bind at 1. rewrite E. reflexivity.
Qed.

Lemma osVersionWindows_store_result (s : string) (w : World) (p : Proc) :
  osVersionWindows_store s w p =
    (s, if s =? "" then p else mkProc (Some s) (queries p)).
Proof.
  unfold osVersionWindows_store, bind, winVerCache_Store, ret, syncs.Store.
  destruct (s =? ""); reflexivity.
Qed.

Lemma osVersionWindows_calls_hit (ws : list World) (p : Proc) (s : string) :
  winVerCache p = Some s ->
  osVersionWindows_calls ws p = (repeat s (length ws), p).
Proof.
  intros E. induction ws as [| w ws IH]; cbn [osVersionWindows_calls length repeat];
    [reflexivity |].
  rewrite (osVersionWindows_hit w p s E), IH. reflexivity.
Qed.


Lemma osVersionWindows_miss_result (w : World) (p : Proc) :
  winVerCache p = None ->
  fst (osVersionWindows w p) = fst (osVersionWindows_compute w p).
Proof.
  intros C. rewrite (osVersionWindows_miss w p C). unfold bind.
  destruct (osVersionWindows_compute w p) as [s0 p1].
  now rewrite osVersionWindows_store_result.
Qed.



(** C9.  The update build revision is a best-effort fourth segment.  On
    a call that computes (nothing is cached):
    - when the major version is 10 and the registry read works (the key
      opens, the value [UBR] is read, its type is [DWORD]), the result is
      ["MAJOR.MINOR.BUILD"] followed by ["."] and the revision;
    - in every other case, a failed read included, the result is just
      ["MAJOR.MINOR.BUILD"];
    - so the result has four dotted segments (three dots) if and only if
      the major version is 10 and the read works, and three segments
      otherwise;
    - [getUBR] returns a nil error exactly when the read works;
    - both probes return a string in every world and state: their result
      type has no error. *)
Theorem osVersionWindows_ubr_best_effort
  `{Filepath} (w : World) (p : Proc) :
  winVerCache p = None ->
  let s := fst (osVersionWindows w p) in
  (major w = 10%N /\ ubr_readable w ->
   s = three_segments w ++ "." ++ fmt_d (uint32 (ubr_value w))) /\
  (~ (major w = 10%N /\ ubr_readable w) -> s = three_segments w) /\
  (dots s = 3 <-> major w = 10%N /\ ubr_readable w) /\
  (dots s = 2 <-> ~ (major w = 10%N /\ ubr_readable w)) /\
  (snd (fst (getUBR w p)) = None <-> ubr_readable w) /\
  (exists (r : string) (p1 : Proc), osVersionWindows w p = (r, p1)) /\
  (exists (r : string) (p1 : Proc), packageTypeWindows w p = (r, p1)).
Proof.
  intros C s. subst s. rewrite (osVersionWindows_miss_result w p C).
  destruct (osVersionWindows_compute_result w p) as [Hok Hko].
  assert (D : (major w = 10%N /\ ubr_readable w) \/
              ~ (major w = 10%N /\ ubr_readable w)).
  { destruct (N.eq_dec (major w) 10); destruct (ubr_readable_dec w); tauto. }
  assert (D4 : forall t, dots (three_segments w ++ "." ++ fmt_d t) = 3).
  { intros t. rewrite !dots_app, dots_three_segments, dots_fmt_d.
    reflexivity. }
  split; [exact Hok |]. split; [exact Hko |].
  split; [| split; [| split; [| split]]].
  - destruct D as [D | D].
    + rewrite (Hok D), D4. tauto.
    + rewrite (Hko D), dots_three_segments. split; [discriminate | tauto].
  - destruct D as [D | D].
    + rewrite (Hok D), D4. split; [discriminate | tauto].
    + rewrite (Hko D), dots_three_segments. tauto.
  - destruct (getUBR_result w p) as [Gok Gko].
    destruct (ubr_readable_dec w) as [R | R].
    + rewrite (Gok R). cbn. tauto.
    + destruct (Gko R) as [e ->]. cbn. split; [discriminate | tauto].
  - destruct (osVersionWindows w p) as [r p1]. now exists r, p1.
  - destruct (packageTypeWindows w p) as [r p1]. now exists r, p1.
Qed.

Lemma osVersionWindows_ubr_best_effort_witness :
  fst (osVersionWindows windows11 initial) =
    three_segments windows11 ++ "." ++ fmt_d 3447 /\
  fst (osVersionWindows windows10_locked initial) =
    three_segments windows10_locked.
Proof.
  split.
  - apply (proj1 (@osVersionWindows_ubr_best_effort
                    test_filepath windows11 initial eq_refl)).
    repeat split.
  - apply (proj1 (proj2 (@osVersionWindows_ubr_best_effort
                           test_filepath windows10_locked initial eq_refl))).
    intros [_ [E _]]. discriminate.
Defined.

(** The call is its two steps run together. *)
Lemma osVersionWindows_two_steps (w : World) (p : Proc) :
  osVersionWindows w p =
    (loaded <- osVersionWindows_begin ;; osVersionWindows_finish loaded) w p.
Proof.
  unfold osVersionWindows, osVersionWindows_begin, osVersionWindows_finish,
    osVersionWindows_after_miss, winVerCache_LoadOk, bind, ret.
  destruct (winVerCache p); reflexivity.
Qed.


(** The same run in full, with a call before and a call after the late
    store: goroutines 2 and 3 get the first string, goroutines 1 and 4 the
    second. *)
Example overlapping_run :
  returned
    (run [Begin 1 windows11;
          Begin 2 windows11; Finish 2 windows11;
          Begin 3 windows11_patched; Finish 3 windows11_patched;
          Finish 1 windows11_patched;
          Begin 4 windows11_patched; Finish 4 windows11_patched] start) =
    [(2, "10.0.22631.3447"); (3, "10.0.22631.3447");
     (1, "10.0.22631.3593"); (4, "10.0.22631.3593")].
Proof. reflexivity. Qed.

(** The scope of the cache property.  The body of [osVersionWindows]
    touches the cache twice, at [LoadOk] and at [Store].  A call that
    found the cache empty and runs the rest of its body only after
    another call has stored its string (the two calls overlap) stores its
    own string over it: the last store is the one later calls see. *)
Remark osVersionWindows_late_store :
  let rest := s0 <- osVersionWindows_compute ;; osVersionWindows_store s0 in
  let '(a, p1) := rest windows11 initial in
  let '(b, p2) := rest windows11_patched p1 in
  a = "10.0.22631.3447" /\ b = "10.0.22631.3593" /\
  fst (osVersionWindows windows11_patched p2) = "10.0.22631.3593".
Proof. cbn. repeat split. Qed.

(** *** The package type *)

(** C8.  The order of the package-origin probe, in every world.
    - If the Chocolatey path exists ([os.Stat] gives no error) the result
      is ["choco"], whatever the installer flag and the uninstaller file
      are: the probe asks for neither.
    - Otherwise, if the registry flag [MSI] is [1], the result is ["msi"].
    - Otherwise, if the path of the running binary is known and the
      uninstaller exists beside it, the result is ["nsis"].
    - Otherwise (no uninstaller there, or the path of the running binary
      cannot be determined) the result is the empty string. *)
Theorem packageTypeWindows_precedence `{Filepath} (w : World) (p : Proc) :
  let r := fst (packageTypeWindows w p) in
  (stat w chocoPath = None ->
   packageTypeWindows w p =
     ("choco", mkProc (winVerCache p) (queries p ++ [QStat chocoPath]))) /\
  (stat w chocoPath <> None -> reg_flag w "MSI" 0%N = 1%N -> r = "msi") /\
  (stat w chocoPath <> None -> reg_flag w "MSI" 0%N <> 1%N ->
   snd (executable w) = None -> stat w (nsisUninstaller w) = None ->
   r = "nsis") /\
  (stat w chocoPath <> None -> reg_flag w "MSI" 0%N <> 1%N ->
   snd (executable w) = None -> stat w (nsisUninstaller w) <> None ->
   r = "") /\
  (stat w chocoPath <> None -> reg_flag w "MSI" 0%N <> 1%N ->
   snd (executable w) <> None ->
   r = "").
Proof.
  unfold packageTypeWindows, nsisUninstaller, bind, os_Stat, os_Executable,
    winutil_GetRegInteger, ask, ret. cbn.
  destruct (stat w chocoPath) as [e |]; cbn.
  2: { repeat split; intros; congruence. }
  destruct (N.eqb_spec (reg_flag w "MSI" 0) 1) as [F | F]; cbn.
  { repeat split; intros; congruence. }
  destruct (executable w) as [exe [e' |]]; cbn.
  { repeat split; intros; congruence. }
  destruct (stat w (filepath_Join [filepath_Dir exe; "Uninstall-Tailscale.exe"]));
    cbn; repeat split; intros; congruence.
Qed.

Lemma packageTypeWindows_precedence_witness :
  reg_flag windows10_locked "MSI" 0%N = 1%N /\
  stat windows10_locked (@nsisUninstaller test_filepath windows10_locked)
    = None /\
  fst (@packageTypeWindows test_filepath windows10_locked initial)
    = "choco" /\
  fst (@packageTypeWindows test_filepath windows11 initial) = "msi".
Proof.
  split; [reflexivity |]. split; [reflexivity |]. split.
  - exact (f_equal fst
             (proj1 (@packageTypeWindows_precedence
                       test_filepath windows10_locked initial) eq_refl)).
  - apply (proj1 (proj2 (@packageTypeWindows_precedence
                           test_filepath windows11 initial)));
      [discriminate | reflexivity].
Defined.

End HostinfoFacts.

(** * More properties of package [opt] *)

Module OptMore.
Import Go opt OptFacts.

Lemma valid_after_op (b : Bool) (o : Op) : valid b -> valid (do_op b o).
Proof.
  unfold valid. intros V. destruct o as [v | | src | j]; cbn.
  - destruct v; cbn; auto.
  - auto.
  - destruct src as [| v | n | | | |]; cbn; auto.
    + destruct v; auto.
    + destruct (n =? 0)%Z; auto.
  - destruct (json_token_dec j) as [T | T].
    + destruct T as [-> | [-> | ->]]; cbn; auto.
    + rewrite (Bool_UnmarshalJSON_other j b T). exact V.
Qed.

Lemma valid_marshals (b : Bool) :
  valid b -> snd (Bool_MarshalJSON b) = None.
Proof. intros [-> | [-> | [-> | ->]]]; reflexivity. Qed.

(** X1.  The four documented encodings are an invariant of the methods:
    from a valid [Bool] (the zero value [""] is one), any sequence of
    [Set], [Clear], [Scan] and [UnmarshalJSON] calls, failed ones
    included, leaves a valid [Bool], and [MarshalJSON] of it returns no
    error. *)
Theorem valid_invariant (ops : list Op) (b : Bool) :
  valid b ->
  valid (do_ops ops b) /\ snd (Bool_MarshalJSON (do_ops ops b)) = None.
Proof.
  revert b. unfold do_ops.
  induction ops as [| o ops IH]; intros b V; cbn [fold_left].
  - split; [exact V | now apply valid_marshals].
  - apply IH. now apply valid_after_op.
Qed.

Lemma valid_invariant_witness :
  let ops := [OpScan (Int64 (-3)); OpUnmarshalJSON (bytes_of "nul");
              OpScan (String_ "yes"); OpUnmarshalJSON (bytes_of "null");
              OpScan (Float64 0)] in
  do_ops ops "" = "unset" /\
  snd (Bool_MarshalJSON (do_ops ops "")) = None.
Proof.
  intros ops. split; [reflexivity |].
  apply (valid_invariant ops "").
  right; right; left; reflexivity.
Defined.

(** X2.  [Scan] followed by [Get].  After [Scan] of a [bool] [v], [Get]
    gives [(v, true)]; after [Scan] of an [int64] [n] it gives
    [(n <> 0, true)], so every non-zero integer, a negative one too, reads
    as true; after [Scan(nil)] it gives [(false, false)]; after a [Scan]
    that failed it gives what it gave before. *)
Theorem Bool_Scan_then_Get (src : any) (b : Bool) :
  (forall v : bool, Bool_Get (fst (Bool_Scan (Bool_ v) b)) = (v, true)) /\
  (forall n : Z,
     Bool_Get (fst (Bool_Scan (Int64 n) b)) = (negb (n =? 0)%Z, true)) /\
  (forall n : Z, (n < 0)%Z ->
     Bool_Get (fst (Bool_Scan (Int64 n) b)) = (true, true)) /\
  Bool_Get (fst (Bool_Scan Nil b)) = (false, false) /\
  (snd (Bool_Scan src b) <> None ->
   Bool_Get (fst (Bool_Scan src b)) = Bool_Get b).
Proof.
  split; [| split; [| split; [| split]]].
  - intros []; reflexivity.
  - intros n. cbn. destruct (n =? 0)%Z; reflexivity.
  - intros n Hn. cbn. destruct (Z.eqb_spec n 0) as [-> | _];
      [discriminate Hn | reflexivity].
  - reflexivity.
  - destruct src; cbn; intros E; try reflexivity; now elim E.
Qed.

Lemma Bool_Scan_then_Get_witness :
  Bool_Get (fst (Bool_Scan (Int64 (-1)) "false")) = (true, true) /\
  Bool_Get (fst (Bool_Scan (Bytes (bytes_of "1")) "true")) = (true, true).
Proof.
  split.
  - apply (proj1 (proj2 (proj2
             (Bool_Scan_then_Get Nil "false")))). reflexivity.
  - apply (proj2 (proj2 (proj2 (proj2
             (Bool_Scan_then_Get (Bytes (bytes_of "1")) "true"))))).
    discriminate.
Defined.

(** X3.  Decoding then encoding gives the input back: when
    [UnmarshalJSON] accepts the bytes [j], [MarshalJSON] of the decoded
    value returns exactly [j], with no error. *)
Theorem Bool_UnmarshalJSON_then_MarshalJSON (j : list byte) (b b' : Bool) :
  Bool_UnmarshalJSON j b = (b', None) ->
  Bool_MarshalJSON b' = (j, None).
Proof.
  intros E. destruct (json_token_dec j) as [T | T].
  - destruct T as [-> | [-> | ->]]; cbn in E; injection E as <-;
      reflexivity.
  - rewrite (Bool_UnmarshalJSON_other j b T) in E. discriminate.
Qed.

Lemma Bool_UnmarshalJSON_then_MarshalJSON_witness :
  Bool_MarshalJSON "unset" = (bytes_of "null", None).
Proof.
  apply (Bool_UnmarshalJSON_then_MarshalJSON (bytes_of "null") "true").
  reflexivity.
Defined.

(** X4.  On valid values the encoding carries exactly the tri-state
    meaning: two valid values encode to the same bytes if and only if
    [Get] gives the same answer on both.  So [""] and ["unset"] cannot be
    told apart on the wire, and no other two meanings collide. *)
Theorem Bool_MarshalJSON_same_iff_Get (b1 b2 : Bool) :
  valid b1 -> valid b2 ->
  (fst (Bool_MarshalJSON b1) = fst (Bool_MarshalJSON b2) <->
   Bool_Get b1 = Bool_Get b2).
Proof.
  intros [-> | [-> | [-> | ->]]] [-> | [-> | [-> | ->]]]; cbn;
    split; intros E; try reflexivity; discriminate E.
Qed.

Lemma Bool_MarshalJSON_same_iff_Get_witness :
  fst (Bool_MarshalJSON "") = fst (Bool_MarshalJSON "unset") <->
  Bool_Get "" = Bool_Get "unset".
Proof.
  apply (Bool_MarshalJSON_same_iff_Get "" "unset").
  - right; right; left; reflexivity.
  - right; right; right; reflexivity.
Defined.

(** X5.  [EqualBool] after the mutators, and its exclusiveness.  After
    [Set(v)], [EqualBool(v')] holds exactly when [v' = v]; after [Clear]
    it holds for neither boolean.  On any value it holds for at most one
    boolean, and for one of them exactly when [Get] says ok. *)
Theorem Bool_EqualBool_exclusive (b b0 : Bool) (v v' : bool) :
  Bool_EqualBool (Bool_Set v b0) v' = Bool.eqb v v' /\
  Bool_EqualBool (Bool_Clear b0) v' = false /\
  (Bool_EqualBool b v = true -> Bool_EqualBool b (negb v) = false) /\
  Bool_EqualBool b true || Bool_EqualBool b false = snd (Bool_Get b).
Proof.
  unfold Bool_EqualBool. repeat split.
  - destruct v, v'; reflexivity.
  - destruct (Bool_Get b) as [[] []], v; cbn; congruence.
  - destruct (Bool_Get b) as [[] []]; reflexivity.
Qed.

Lemma Bool_EqualBool_exclusive_witness :
  Bool_EqualBool "false" (negb false) = false.
Proof.
  apply (proj1 (proj2 (proj2
           (Bool_EqualBool_exclusive "false" "" false false)))).
  reflexivity.
Defined.

Lemma json_token_inside (pre tok post : list byte) :
  json_token tok -> json_token (pre ++ tok ++ post) ->
  pre = [] /\ post = [].
Proof.
  unfold json_token, bytes_of.
  intros [-> | [-> | ->]] [E | [E | E]];
    pose proof (f_equal (@length byte) E) as L;
    rewrite !length_app in L; cbn in L;
    destruct pre as [| x [| x2 pre]]; destruct post as [| y [| y2 post]];
    cbn in L; try lia; auto;
    vm_compute in E; injection E as _ E; discriminate E.
Qed.

(** X6.  [UnmarshalJSON] does not trim: a token with any byte before or
    after it (white space, quotes, a second token) is refused with the
    error that carries the whole input, and the receiver keeps its value.
    The empty input is refused as well. *)
Theorem Bool_UnmarshalJSON_no_trim (pre tok post : list byte) (b : Bool) :
  (json_token tok -> pre <> [] \/ post <> [] ->
   Bool_UnmarshalJSON (pre ++ tok ++ post) b =
     (b, Some (Errorf "invalid opt.Bool value %q"
                 [Bytes (pre ++ tok ++ post)]))) /\
  Bool_UnmarshalJSON [] b =
    (b, Some (Errorf "invalid opt.Bool value %q" [Bytes []])).
Proof.
  split; [| reflexivity].
  intros T Hne. apply Bool_UnmarshalJSON_other. intros T'.
  destruct (json_token_inside pre tok post T T') as [-> ->].
  destruct Hne as [H | H]; now apply H.
Qed.

Lemma Bool_UnmarshalJSON_no_trim_witness :
  let j := (bytes_of " " ++ bytes_of "true" ++ [])%list in
  Bool_UnmarshalJSON j "false" =
    ("false", Some (Errorf "invalid opt.Bool value %q" [Bytes j])).
Proof.
  intros j.
  apply (proj1 (Bool_UnmarshalJSON_no_trim
                  (bytes_of " ") (bytes_of "true") [] "false")).
  - left. reflexivity.
  - left. intros E. vm_compute in E. discriminate E.
Defined.

End OptMore.

(** * More properties of package [hostinfo] *)

Module HostinfoMore.
Import Go hostinfo HostinfoFacts.
Local Open Scope probe_scope.
Local Open Scope list_scope.

(** *** [getUBR] *)

(** The state after [getUBR], by the answer to [OpenKey]. *)
Lemma getUBR_state (w : World) (p : Proc) :
  snd (getUBR w p) =
    mkProc (winVerCache p)
      (queries p ++
       match reg_open w CurrentVersion with
       | Some _ => [QOpenKey CurrentVersion]
       | None => [QOpenKey CurrentVersion;
                  QGetIntegerValue CurrentVersion "UBR";
                  QCloseKey CurrentVersion]
       end).
Proof.
  unfold getUBR, defer, bind, registry_OpenKey, Key_GetIntegerValue,
    Key_Close, ask, ret. cbn.
  destruct (reg_open w CurrentVersion) as [e |]; [reflexivity |].
  destruct (reg_integer w CurrentVersion "UBR") as [[val ty] [e |]]; cbn.
  - now rewrite <- !app_assoc.
  - destruct (ty =? DWORD)%N; cbn; now rewrite <- !app_assoc.
Qed.

(** X7.  [getUBR] releases what it acquires, on every path.  When
    [OpenKey] fails it makes that one query and closes nothing.  When
    [OpenKey] succeeds it reads the value [UBR] and then closes the key,
    whether the read fails, gives another type than [DWORD], or works.
    It never touches the version cache. *)
Theorem getUBR_closes_key (w : World) (p : Proc) :
  winVerCache (snd (getUBR w p)) = winVerCache p /\
  (reg_open w CurrentVersion <> None ->
   queries (snd (getUBR w p)) = queries p ++ [QOpenKey CurrentVersion]) /\
  (reg_open w CurrentVersion = None ->
   queries (snd (getUBR w p)) =
     queries p ++ [QOpenKey CurrentVersion;
                   QGetIntegerValue CurrentVersion "UBR";
                   QCloseKey CurrentVersion]).
Proof.
  rewrite getUBR_state. cbn. split; [reflexivity |].
  destruct (reg_open w CurrentVersion); split; intros E;
    congruence || reflexivity.
Qed.

Lemma getUBR_closes_key_witness :
  queries (snd (getUBR windows7 initial)) =
    [QOpenKey CurrentVersion; QGetIntegerValue CurrentVersion "UBR";
     QCloseKey CurrentVersion] /\
  queries (snd (getUBR windows10_locked initial)) =
    [QOpenKey CurrentVersion].
Proof.
  split.
  - apply (proj2 (proj2 (getUBR_closes_key windows7 initial))).
    reflexivity.
  - apply (proj1 (proj2 (getUBR_closes_key windows10_locked initial))).
    discriminate.
Defined.

(** The result of [getUBR], by the answers of the registry. *)
Lemma getUBR_value (w : World) (p : Proc) :
  fst (getUBR w p) =
    match reg_open w CurrentVersion with
    | Some e => (0%N, Some e)
    | None =>
        match ubr_error w with
        | Some e => (0%N, Some e)
        | None =>
            if (ubr_type w =? DWORD)%N then (uint32 (ubr_value w), None)
            else (0%N, Some ErrUnexpectedType)
        end
    end.
Proof.
  unfold ubr_error, ubr_type, ubr_value, getUBR, defer, bind,
    registry_OpenKey, Key_GetIntegerValue, Key_Close, ask, ret. cbn.
  destruct (reg_open w CurrentVersion) as [e |]; [reflexivity |].
  destruct (reg_integer w CurrentVersion "UBR") as [[val ty] [e |]]; cbn;
    [reflexivity |].
  destruct (ty =? DWORD)%N; reflexivity.
Qed.

(** X8.  What [getUBR] returns.  The number is always below [2^32], and
    it is [0] whenever the error is not nil.  The error of a failed
    [OpenKey] or [GetIntegerValue] is returned as it is; a value of
    another type than [DWORD] gives [registry.ErrUnexpectedType].  On
    success the number is the registry value cut to 32 bits, which is the
    value itself when that is below [2^32]. *)
Theorem getUBR_result_bounds (w : World) (p : Proc) (e : error) :
  (fst (fst (getUBR w p)) < 2 ^ 32)%N /\
  (snd (fst (getUBR w p)) <> None -> fst (fst (getUBR w p)) = 0%N) /\
  (reg_open w CurrentVersion = Some e ->
   fst (getUBR w p) = (0%N, Some e)) /\
  (reg_open w CurrentVersion = None -> ubr_error w = Some e ->
   fst (getUBR w p) = (0%N, Some e)) /\
  (reg_open w CurrentVersion = None -> ubr_error w = None ->
   ubr_type w <> DWORD ->
   fst (getUBR w p) = (0%N, Some ErrUnexpectedType)) /\
  (ubr_readable w ->
   fst (getUBR w p) = ((ubr_value w mod 2 ^ 32)%N, None)) /\
  (ubr_readable w -> (ubr_value w < 2 ^ 32)%N ->
   fst (getUBR w p) = (ubr_value w, None)).
Proof.
  rewrite getUBR_value. unfold ubr_readable.
  destruct (reg_open w CurrentVersion) as [e0 |].
  { cbn. repeat split; intros; try congruence; try reflexivity;
      try (destruct H; discriminate). }
  destruct (ubr_error w) as [e1 |].
  { cbn. repeat split; intros; try congruence; try reflexivity;
      try (destruct H as (_ & H & _); discriminate). }
  destruct (N.eqb_spec (ubr_type w) DWORD) as [T | T].
  - cbn. unfold uint32. repeat split; intros; try congruence.
    + apply N.mod_lt. discriminate.
    + now rewrite N.mod_small.
  - cbn. repeat split; intros; try congruence; try reflexivity;
      try (destruct H as (_ & _ & H); contradiction).
Qed.

Lemma getUBR_result_bounds_witness :
  fst (getUBR windows11 initial) = (3447%N, None) /\
  fst (getUBR windows10_locked initial) = (0%N, Some ERROR_ACCESS_DENIED).
Proof.
  split.
  - apply (proj2 (proj2 (proj2 (proj2 (proj2 (proj2
             (getUBR_result_bounds windows11 initial ErrUnexpectedType)))))));
      [repeat split | reflexivity].
  - apply (proj1 (proj2 (proj2
             (getUBR_result_bounds windows10_locked initial
                ERROR_ACCESS_DENIED)))).
    reflexivity.
Defined.

(** *** The version probe over the life of a process *)

(** The queries of one computation of the version string. *)
Lemma osVersionWindows_compute_state (w : World) (p : Proc) :
  snd (osVersionWindows_compute w p) =
    mkProc (winVerCache p)
      (queries p ++
       QRtlGetNtVersionNumbers ::
       (if (major w =? 10)%N then
          match reg_open w CurrentVersion with
          | Some _ => [QOpenKey CurrentVersion]
          | None => [QOpenKey CurrentVersion;
                     QGetIntegerValue CurrentVersion "UBR";
                     QCloseKey CurrentVersion]
          end
        else [])).
Proof.
  unfold osVersionWindows_compute, major.
  unfold bind at 1. unfold RtlGetNtVersionNumbers, ask. cbn.
  destruct (nt_version w) as [[ma mi] bu]. cbn.
  destruct (ma =? 10)%N; [| reflexivity].
  unfold bind.
  pose proof (getUBR_state w
                (mkProc (winVerCache p)
                   (queries p ++ [QRtlGetNtVersionNumbers]))) as S.
  destruct (getUBR w _) as [[u e] p2]. cbn in S. subst p2.
  rewrite <- app_assoc. destruct e; reflexivity.
Qed.

(** The computed string does not depend on the process state. *)
Lemma osVersionWindows_compute_same (w : World) (p q : Proc) :
  fst (osVersionWindows_compute w p) = fst (osVersionWindows_compute w q).
Proof.
  destruct (osVersionWindows_compute_result w p) as [Hp Hp'].
  destruct (osVersionWindows_compute_result w q) as [Hq Hq'].
  assert (D : (major w = 10%N /\ ubr_readable w) \/
              ~ (major w = 10%N /\ ubr_readable w)).
  { destruct (N.eq_dec (major w) 10); destruct (ubr_readable_dec w); tauto. }
  destruct D as [D | D].
  - now rewrite (Hp D), (Hq D).
  - now rewrite (Hp' D), (Hq' D).
Qed.

(** After a miss the computed string is stored, whatever the state. *)
Lemma osVersionWindows_after_miss_result (w : World) (p : Proc) :
  osVersionWindows_after_miss w p =
    (fst (osVersionWindows_compute w p),
     mkProc (Some (fst (osVersionWindows_compute w p)))
       (queries (snd (osVersionWindows_compute w p)))).
Proof.
  unfold osVersionWindows_after_miss, bind.
  pose proof (osVersionWindows_compute_nonempty w p) as Hne.
  destruct (osVersionWindows_compute w p) as [s p1]. cbn in *.
  rewrite osVersionWindows_store_result.
  destruct (String.eqb_spec s ""); [contradiction | reflexivity].
Qed.

(** X9.  The first world wins.  In a process whose cache is empty, a run
    of calls of [osVersionWindows] in the worlds [w], then [ws], returns
    the string of the first call every time, and the state after all of
    them is the state after the first: over its life the process computes
    the version once. *)
Theorem osVersionWindows_first_world
  (w : World) (ws : list World) (p : Proc) :
  winVerCache p = None ->
  osVersionWindows_calls (w :: ws) p =
    (repeat (fst (osVersionWindows w p)) (S (length ws)),
     snd (osVersionWindows w p)).
Proof.
  intros C. cbn [osVersionWindows_calls].
  rewrite (osVersionWindows_miss w p C).
  change ((s <- osVersionWindows_compute ;; osVersionWindows_store s) w p)
    with (osVersionWindows_after_miss w p).
  rewrite osVersionWindows_after_miss_result. cbn [fst snd].
  set (s := fst (osVersionWindows_compute w p)).
  set (q := queries (snd (osVersionWindows_compute w p))).
  now rewrite (osVersionWindows_calls_hit ws (mkProc (Some s) q) s eq_refl).
Qed.

Lemma osVersionWindows_first_world_witness :
  fst (osVersionWindows_calls
         [windows7; windows11; windows10_locked] initial) =
    ["6.1.7601"; "6.1.7601"; "6.1.7601"]%string.
Proof.
  exact (f_equal fst
           (osVersionWindows_first_world
              windows7 [windows11; windows10_locked] initial eq_refl)).
Defined.

(** X10.  The queries of one call of [osVersionWindows].  A call that
    finds a cached string makes none and leaves the state as it is.  A
    call that computes asks for the version numbers; it goes to the
    registry only when the major version is 10, and then closes the key
    if it opened it.  No call makes more than four queries. *)
Theorem osVersionWindows_queries (w : World) (p : Proc) :
  (winVerCache p <> None -> snd (osVersionWindows w p) = p) /\
  (winVerCache p = None -> major w <> 10%N ->
   queries (snd (osVersionWindows w p)) =
     queries p ++ [QRtlGetNtVersionNumbers]) /\
  (winVerCache p = None -> major w = 10%N ->
   reg_open w CurrentVersion <> None ->
   queries (snd (osVersionWindows w p)) =
     queries p ++ [QRtlGetNtVersionNumbers; QOpenKey CurrentVersion]) /\
  (winVerCache p = None -> major w = 10%N ->
   reg_open w CurrentVersion = None ->
   queries (snd (osVersionWindows w p)) =
     queries p ++ [QRtlGetNtVersionNumbers; QOpenKey CurrentVersion;
                   QGetIntegerValue CurrentVersion "UBR";
                   QCloseKey CurrentVersion]) /\
  length (queries (snd (osVersionWindows w p))) <= length (queries p) + 4.
Proof.
  destruct (winVerCache p) as [c |] eqn:C.
  { rewrite (osVersionWindows_hit w p c C). cbn.
    repeat split; intros; try congruence. apply Nat.le_add_r. }
  rewrite (osVersionWindows_miss w p C).
  change ((s <- osVersionWindows_compute ;; osVersionWindows_store s) w p)
    with (osVersionWindows_after_miss w p).
  rewrite osVersionWindows_after_miss_result. cbn [fst snd queries].
  rewrite osVersionWindows_compute_state. cbn [queries].
  destruct (N.eqb_spec (major w) 10) as [M | M];
    destruct (reg_open w CurrentVersion) as [e |];
    repeat split; intros; try congruence; try reflexivity;
    rewrite length_app; cbn; lia.
Qed.

Lemma osVersionWindows_queries_witness :
  queries (snd (osVersionWindows windows7 initial)) =
    [QRtlGetNtVersionNumbers].
Proof.
  apply (proj1 (proj2 (osVersionWindows_queries windows7 initial)));
    [reflexivity | discriminate].
Defined.

(** X11.  A call that computes does not look at the cache again before
    it stores.  Run in any process state, also one whose cache holds
    another string by now, the body after the miss stores the string it
    computed, and the next call, in any world, returns that string. *)
Theorem osVersionWindows_after_miss_overwrites
  (w w' : World) (p : Proc) :
  winVerCache (snd (osVersionWindows_after_miss w p)) =
    Some (fst (osVersionWindows_after_miss w p)) /\
  fst (osVersionWindows_after_miss w p) =
    fst (osVersionWindows w initial) /\
  osVersionWindows w' (snd (osVersionWindows_after_miss w p)) =
    osVersionWindows_after_miss w p.
Proof.
  rewrite osVersionWindows_after_miss_result. cbn [fst snd winVerCache].
  split; [reflexivity |]. split.
  - rewrite (osVersionWindows_miss_result w initial eq_refl).
    apply osVersionWindows_compute_same.
  - set (s := fst (osVersionWindows_compute w p)).
    set (q := queries (snd (osVersionWindows_compute w p))).
    now rewrite (osVersionWindows_hit w' (mkProc (Some s) q) s eq_refl).
Qed.

(** *** The version string can be read back *)

Lemma append_assoc (a b c : string) :
  ((a ++ b) ++ c = a ++ (b ++ c))%string.
Proof. induction a as [| x a IH]; cbn; [reflexivity | now rewrite IH]. Qed.

Lemma fmt_d_inj (n m : N) : fmt_d n = fmt_d m -> n = m.
Proof.
  unfold fmt_d. intros E.
  assert (Hn : forall k : N, N.to_uint k <> Decimal.Nil).
  { intros [| q]; [discriminate | apply DecimalPos.Unsigned.to_uint_nonnil]. }
  apply (f_equal NilZero.uint_of_string) in E.
  rewrite !NilZero.usu in E by apply Hn.
  injection E as E. now apply DecimalN.Unsigned.to_uint_inj.
Qed.

(** Two strings cut at their first dot agree piece by piece. *)
Lemma first_dot_split (a a' r r' : string) :
  dots a = 0 -> dots a' = 0 ->
  (a ++ String "." r = a' ++ String "." r')%string ->
  a = a' /\ r = r'.
Proof.
  revert a'. induction a as [| c a IH]; intros [| c' a'] Da Da' E; cbn in *.
  - injection E as <-. auto.
  - injection E as <- _. cbn in Da'. discriminate.
  - injection E as -> _. cbn in Da. discriminate.
  - injection E as <- E.
    destruct (Ascii.eqb c "."); [discriminate |].
    destruct (IH a' Da Da' E) as [<- <-]. auto.
Qed.

Lemma three_segments_inj (w1 w2 : World) (t1 t2 : string) :
  (three_segments w1 ++ t1 = three_segments w2 ++ t2)%string ->
  (t1 = "" \/ exists u, t1 = String "." (fmt_d u))%string ->
  (t2 = "" \/ exists u, t2 = String "." (fmt_d u))%string ->
  nt_version w1 = nt_version w2 /\ t1 = t2.
Proof.
  unfold three_segments, major, minor, build.
  destruct (nt_version w1) as [[a1 b1] c1], (nt_version w2) as [[a2 b2] c2].
  cbn [fst snd]. rewrite !append_assoc. cbn [append].
  rewrite ?append_assoc. cbn [append].
  intros E T1 T2.
  apply first_dot_split in E; try apply dots_fmt_d. destruct E as [Ea E].
  apply first_dot_split in E; try apply dots_fmt_d. destruct E as [Eb E].
  apply fmt_d_inj in Ea, Eb. subst a2 b2.
  assert (D : forall (c : N) (u : N) (c' : N),
             (fmt_d c ++ String "." (fmt_d u))%string <> fmt_d c').
  { intros c u c' H. apply (f_equal dots) in H.
    rewrite dots_app in H. cbn in H. rewrite !dots_fmt_d in H.
    discriminate. }
  assert (R : forall x : string, (x ++ "")%string = x).
  { induction x as [| y x IH]; cbn; [reflexivity | now rewrite IH]. }
  destruct T1 as [-> | [u1 ->]], T2 as [-> | [u2 ->]].
  - rewrite !R in E. apply fmt_d_inj in E. now subst c2.
  - rewrite R in E. symmetry in E. now apply D in E.
  - rewrite R in E. now apply D in E.
  - apply first_dot_split in E; try apply dots_fmt_d.
    destruct E as [Ec ->]. apply fmt_d_inj in Ec. now subst c2.
Qed.

(** X12.  The version string determines what was read.  If two calls
    that compute (in any two worlds) return the same string, then the
    three version numbers were the same, both or neither carried a
    revision, and the revisions, cut to 32 bits, were the same. *)
Theorem osVersionWindows_injective (w1 w2 : World) (p1 p2 : Proc) :
  winVerCache p1 = None -> winVerCache p2 = None ->
  fst (osVersionWindows w1 p1) = fst (osVersionWindows w2 p2) ->
  nt_version w1 = nt_version w2 /\
  (major w1 = 10%N /\ ubr_readable w1 <->
   major w2 = 10%N /\ ubr_readable w2) /\
  (major w1 = 10%N /\ ubr_readable w1 ->
   uint32 (ubr_value w1) = uint32 (ubr_value w2)).
Proof.
  intros C1 C2.
  rewrite (osVersionWindows_miss_result w1 p1 C1).
  rewrite (osVersionWindows_miss_result w2 p2 C2).
  destruct (osVersionWindows_compute_result w1 p1) as [H1 H1'].
  destruct (osVersionWindows_compute_result w2 p2) as [H2 H2'].
  assert (D : forall w, (major w = 10%N /\ ubr_readable w) \/
                        ~ (major w = 10%N /\ ubr_readable w)).
  { intros w. destruct (N.eq_dec (major w) 10);
      destruct (ubr_readable_dec w); tauto. }
  assert (R : forall x : string, (x ++ "")%string = x).
  { induction x as [| y x IH]; cbn; [reflexivity | now rewrite IH]. }
  destruct (D w1) as [D1 | D1], (D w2) as [D2 | D2].
  - rewrite (H1 D1), (H2 D2). cbn [append]. intros E.
    apply three_segments_inj in E; [| right; eexists; reflexivity ..].
    destruct E as [E Eu]. injection Eu as Eu. apply fmt_d_inj in Eu.
    tauto.
  - rewrite (H1 D1), (H2' D2). cbn [append]. intros E.
    rewrite <- (R (three_segments w2)) in E.
    apply three_segments_inj in E;
      [| right; eexists; reflexivity | left; reflexivity].
    destruct E as [_ E]. discriminate E.
  - rewrite (H1' D1), (H2 D2). cbn [append]. intros E.
    rewrite <- (R (three_segments w1)) in E.
    apply three_segments_inj in E;
      [| left; reflexivity | right; eexists; reflexivity].
    destruct E as [_ E]. discriminate E.
  - rewrite (H1' D1), (H2' D2). intros E.
    rewrite <- (R (three_segments w1)), <- (R (three_segments w2)) in E.
    apply three_segments_inj in E; [| left; reflexivity ..].
    destruct E as [E _]. tauto.
Qed.

Lemma osVersionWindows_injective_witness :
  nt_version windows11 = nt_version windows11 /\
  (major windows11 = 10%N /\ ubr_readable windows11 <->
   major windows11 = 10%N /\ ubr_readable windows11) /\
  (major windows11 = 10%N /\ ubr_readable windows11 ->
   uint32 (ubr_value windows11) = uint32 (ubr_value windows11)).
Proof.
  apply (osVersionWindows_injective windows11 windows11 initial
           (mkProc None [QStat chocoPath]));
    reflexivity.
Defined.

(** *** The form of the version string *)

Lemma version_chars_app (a b : string) :
  version_chars (a ++ b)%string = version_chars a && version_chars b.
Proof.
  induction a as [| c a IH]; cbn; [reflexivity |].
  rewrite IH. now rewrite andb_assoc.
Qed.

Lemma version_chars_fmt_d (n : N) : version_chars (fmt_d n) = true.
Proof.
  unfold fmt_d, NilZero.string_of_uint.
  assert (G : forall d, version_chars (NilEmpty.string_of_uint d) = true).
  { induction d; cbn; auto. }
  destruct (N.to_uint n) eqn:E; try reflexivity; rewrite <- E; apply G.
Qed.

Lemma version_ok_compute (w : World) (p : Proc) :
  version_ok (fst (osVersionWindows_compute w p)) = true.
Proof.
  destruct (osVersionWindows_compute_result w p) as [Hok Hko].
  assert (D : (major w = 10%N /\ ubr_readable w) \/
              ~ (major w = 10%N /\ ubr_readable w)).
  { destruct (N.eq_dec (major w) 10); destruct (ubr_readable_dec w); tauto. }
  assert (C3 : version_chars (three_segments w) = true).
  { unfold three_segments.
    rewrite !version_chars_app, !version_chars_fmt_d. reflexivity. }
  unfold version_ok. destruct D as [D | D].
  - rewrite (Hok D), !version_chars_app, !dots_app, C3,
      version_chars_fmt_d, dots_three_segments, dots_fmt_d. reflexivity.
  - rewrite (Hko D), C3, dots_three_segments. reflexivity.
Qed.

Lemma version_ok_call (w : World) (p : Proc) :
  cache_ok p ->
  version_ok (fst (osVersionWindows w p)) = true /\
  cache_ok (snd (osVersionWindows w p)).
Proof.
  unfold cache_ok. intros K. destruct (winVerCache p) as [c |] eqn:C.
  - rewrite (osVersionWindows_hit w p c C). cbn. now rewrite C.
  - rewrite (osVersionWindows_miss w p C).
    change ((s <- osVersionWindows_compute ;; osVersionWindows_store s) w p)
      with (osVersionWindows_after_miss w p).
    rewrite osVersionWindows_after_miss_result. cbn.
    split; apply version_ok_compute.
Qed.

(** X13.  Every string the version probe hands out is well formed.  From
    a process state whose cache is empty or holds a well-formed string,
    every call of any run returns a string of decimal digits and dots with
    three or four dotted segments, and the cache stays like that. *)
Theorem osVersionWindows_well_formed (ws : list World) (p : Proc) :
  cache_ok p ->
  Forall (fun s => version_ok s = true) (fst (osVersionWindows_calls ws p))
  /\ cache_ok (snd (osVersionWindows_calls ws p)).
Proof.
  revert p. induction ws as [| w ws IH]; intros p K;
    cbn [osVersionWindows_calls].
  - cbn. split; [constructor | exact K].
  - destruct (version_ok_call w p K) as [V K1].
    destruct (osVersionWindows w p) as [s p1]. cbn [fst snd] in V, K1.
    destruct (IH p1 K1) as [F K2].
    destruct (osVersionWindows_calls ws p1) as [ss p2]. cbn [fst snd] in *.
    split; [now constructor | exact K2].
Qed.

Lemma osVersionWindows_well_formed_witness :
  Forall (fun s => version_ok s = true)
    (fst (osVersionWindows_calls [windows10_locked; windows7] initial)).
Proof.
  exact (proj1 (osVersionWindows_well_formed
                  [windows10_locked; windows7] initial I)).
Defined.

(** *** The package-origin probe *)

(** One run of [packageTypeWindows] in full: the tag depends on the
    world only, the cache is kept, and the queries are the first [k] of
    the four. *)
Lemma packageTypeWindows_run `{Filepath} (w : World) :
  exists (k : nat) (r : string),
    1 <= k <= 4 /\
    In r ["choco"; "msi"; "nsis"; ""] /\
    (r = "choco" -> k = 1) /\ (r = "msi" -> k = 2) /\
    (r = "nsis" -> k = 4) /\
    (k = 3 -> snd (executable w) <> None) /\
    forall p : Proc,
      packageTypeWindows w p =
        (r, mkProc (winVerCache p)
              (queries p ++ firstn k (packageType_queries w))).
Proof.
  unfold packageTypeWindows, packageType_queries, nsisUninstaller, bind,
    os_Stat, os_Executable, winutil_GetRegInteger, ask, ret. cbn.
  destruct (stat w chocoPath) as [e |]; cbn.
  2: { exists 1, "choco". repeat split; auto; try discriminate; lia. }
  destruct (reg_flag w "MSI" 0 =? 1)%N; cbn.
  { exists 2, "msi". repeat split; auto; try discriminate; try lia.
    intros p. now rewrite <- app_assoc. }
  destruct (executable w) as [exe [e' |]]; cbn.
  { exists 3, "". repeat split; auto 6; try discriminate; try lia.
    intros p. now rewrite <- !app_assoc. }
  destruct (stat w _); cbn.
  - exists 4, "". repeat split; auto 6; try discriminate; try lia.
    intros p. now rewrite <- !app_assoc.
  - exists 4, "nsis". repeat split; auto 6; try discriminate; try lia.
    intros p. now rewrite <- !app_assoc.
Qed.

(** X14.  The result of [packageTypeWindows] is one of the four tags
    ["choco"], ["msi"], ["nsis"] and [""]; it depends on the world only,
    not on the process state, so nothing is cached between calls; and the
    call leaves the version cache as it is. *)
Theorem packageTypeWindows_tags `{Filepath} (w : World) (p q : Proc) :
  In (fst (packageTypeWindows w p)) ["choco"; "msi"; "nsis"; ""] /\
  fst (packageTypeWindows w p) = fst (packageTypeWindows w q) /\
  winVerCache (snd (packageTypeWindows w p)) = winVerCache p.
Proof.
  destruct (packageTypeWindows_run w) as (k & r & _ & T & _ & _ & _ & _ & E).
  rewrite (E p), (E q). cbn. auto.
Qed.

(** X15.  The queries of [packageTypeWindows] are a non-empty prefix of
    its four queries in source order (the Chocolatey path, the [MSI]
    flag, the path of the binary, the uninstaller file): it stops at the
    first that decides.  The answer ["choco"] takes one query, ["msi"]
    two and ["nsis"] four; a call that stops after three could not
    determine the path of the binary. *)
Theorem packageTypeWindows_queries `{Filepath} (w : World) (p : Proc) :
  exists k : nat,
    1 <= k <= 4 /\
    queries (snd (packageTypeWindows w p)) =
      queries p ++ firstn k (packageType_queries w) /\
    (fst (packageTypeWindows w p) = "choco" -> k = 1) /\
    (fst (packageTypeWindows w p) = "msi" -> k = 2) /\
    (fst (packageTypeWindows w p) = "nsis" -> k = 4) /\
    (k = 3 -> snd (executable w) <> None).
Proof.
  destruct (packageTypeWindows_run w)
    as (k & r & K & _ & C & M & S & X & E).
  exists k. rewrite (E p). cbn. auto 7.
Qed.

Lemma osVersionWindows_cache_only (w : World) (p q : Proc) :
  winVerCache p = winVerCache q ->
  fst (osVersionWindows w p) = fst (osVersionWindows w q).
Proof.
  intros E. destruct (winVerCache p) as [c |] eqn:C.
  - now rewrite (osVersionWindows_hit w p c C),
      (osVersionWindows_hit w q c (eq_sym E)).
  - rewrite (osVersionWindows_miss_result w p C),
      (osVersionWindows_miss_result w q (eq_sym E)).
    apply osVersionWindows_compute_same.
Qed.

(** X16.  The two probes do not disturb each other.  A call of
    [packageTypeWindows] in between, in any world, does not change what
    [osVersionWindows] returns, and a call of [osVersionWindows] does not
    change what [packageTypeWindows] returns. *)
Theorem probes_independent `{Filepath} (w w0 : World) (p : Proc) :
  fst (osVersionWindows w (snd (packageTypeWindows w0 p))) =
    fst (osVersionWindows w p) /\
  fst (packageTypeWindows w0 (snd (osVersionWindows w p))) =
    fst (packageTypeWindows w0 p).
Proof.
  destruct (packageTypeWindows_run w0) as (k & r & _ & _ & _ & _ & _ & _ & E).
  split.
  - apply osVersionWindows_cache_only. now rewrite (E p).
  - now rewrite !E.
Qed.

(** *** Runs with calls in flight *)

Lemma take_call_loaded (g : nat) (l r : list (nat * option string))
  (x : option string) :
  take_call g l = Some (x, r) ->
  Forall (fun c => snd c <> None) l ->
  x <> None /\ Forall (fun c => snd c <> None) r.
Proof.
  revert r. induction l as [| [g' y] l IH]; intros r E F; cbn in E.
  - discriminate.
  - inversion F as [| c l0 Hy Fl]; subst.
    destruct (Nat.eqb g g').
    + injection E as <- <-. auto.
    + destruct (take_call g l) as [[z r0] |]; [| discriminate].
      injection E as <- <-. destruct (IH r0 eq_refl Fl) as [Hz Fr].
      split; [exact Hz | constructor; assumption].
Qed.

Lemma act_keeps_cache (sys : Sys) (a : Action) (s : string) :
  winVerCache (proc sys) = Some s ->
  Forall (fun c => snd c <> None) (in_flight sys) ->
  proc (act sys a) = proc sys /\
  Forall (fun c => snd c <> None) (in_flight (act sys a)).
Proof.
  intros C F. destruct a as [g w | g w]; cbn.
  - destruct (take_call g (in_flight sys)); [auto |].
    unfold osVersionWindows_begin, bind, winVerCache_LoadOk, ret.
    rewrite C. cbn. split; [reflexivity |].
    constructor; [discriminate | exact F].
  - destruct (take_call g (in_flight sys)) as [[x r] |] eqn:T; [| auto].
    destruct (take_call_loaded g _ r x T F) as [Hx Fr].
    destruct x as [c |]; [| contradiction]. cbn. auto.
Qed.

(** X17.  When the cache holds a string and no call in flight has found
    the cache empty, the string stays: whatever steps the goroutines take
    from there, calls begun before or after, the process state does not
    change and a call in any world returns the cached string. *)
Theorem osVersionWindows_sticky_in_run
  (schedule : list Action) (sys : Sys) (s : string) (w : World) :
  winVerCache (proc sys) = Some s ->
  Forall (fun c => snd c <> None) (in_flight sys) ->
  proc (run schedule sys) = proc sys /\
  fst (osVersionWindows w (proc (run schedule sys))) = s.
Proof.
  intros C F.
  assert (P : proc (run schedule sys) = proc sys).
  { revert sys C F. unfold run.
    induction schedule as [| a l IH]; intros sys C F; cbn [fold_left].
    - reflexivity.
    - destruct (act_keeps_cache sys a s C F) as [E F'].
      rewrite IH; [exact E | now rewrite E | exact F']. }
  split; [exact P |].
  rewrite P. now rewrite (osVersionWindows_hit w (proc sys) s C).
Qed.

Lemma osVersionWindows_sticky_in_run_witness :
  let s := "10.0.22631.3447"%string in
  let sys := mkSys (mkProc (Some s) []) [(5, Some s)] [] in
  let schedule := [Begin 2 windows11_patched; Finish 5 windows7;
                   Finish 2 windows7] in
  proc (run schedule sys) = proc sys /\
  fst (osVersionWindows windows10_locked (proc (run schedule sys))) = s.
Proof.
  intros s sys schedule.
  apply (osVersionWindows_sticky_in_run schedule sys s windows10_locked).
  - reflexivity.
  - repeat constructor; discriminate.
Defined.

End HostinfoMore.
